(** * Scroll to Breathe: the scroll handler and the audio toggle of script.js

    A shallow embedding of [handleScroll] and of the click handler of the
    audio toggle.  JavaScript numbers are read as exact rationals ([Q]); the
    two values that go through [Math.sin] are real numbers ([R]).  The one
    place where the script can meet a non-number ([messagePositions[i]] past
    the end of the array) is modelled with [value] and [number], which carry
    [undefined] and [NaN]. *)

From Stdlib Require Import QArith Qabs Qminmax Qreals Reals Psatz Lia.
From Stdlib Require Import List String Bool.
Import ListNotations.

Local Open Scope Q_scope.

(** ** JavaScript values met by the script *)

Module JS.

(** A number is a rational or [NaN]. *)
Inductive number : Type :=
| Num (q : Q)
| NaN.

(** What indexing an array of numbers returns. *)
Inductive value : Type :=
| Undefined
| Number (n : number).

(** [ToNumber]: [undefined] becomes [NaN]. *)
Definition to_number (v : value) : number :=
  match v with
  | Undefined => NaN
  | Number n => n
  end.

(** [a[i]]: reading past the end gives [undefined], it does not throw. *)
Definition index (a : list Q) (i : nat) : value :=
  match nth_error a i with
  | Some q => Number (Num q)
  | None => Undefined
  end.

Definition sub (a b : number) : number :=
  match a, b with
  | Num x, Num y => Num (x - y)
  | _, _ => NaN
  end.

Definition div (a b : number) : number :=
  match a, b with
  | Num x, Num y => Num (x / y)
  | _, _ => NaN
  end.

Definition Math_abs (a : number) : number :=
  match a with
  | Num x => Num (Qabs x)
  | NaN => NaN
  end.

(** [a < b]: every comparison with [NaN] is false. *)
Definition lt (a b : number) : bool :=
  match a, b with
  | Num x, Num y => negb (Qle_bool y x)
  | _, _ => false
  end.

(** [a || b] on numbers: [0] is falsy. *)
Definition or (a b : Q) : Q :=
  if Qeq_bool a 0 then b else a.

Definition Math_max (a b : Q) : Q := Qmax a b.
Definition Math_min (a b : Q) : Q := Qmin a b.

(** [a > 0] and [a >= b] on rationals. *)
Definition gt (a b : Q) : bool := negb (Qle_bool a b).
Definition ge (a b : Q) : bool := Qle_bool b a.

End JS.

(** ** The page *)

(** The value written to [document.body.style.backgroundColor]:
    [hsl(hue, 60%, lightness%)]. *)
Record hsl : Type := mkHsl {
  hsl_hue : Q;
  hsl_saturation : Q;
  hsl_lightness : R
}.

(** Every write the two handlers make to the host, in the order made. *)
Inductive effect : Type :=
| SetBackgroundColor (c : hsl)
| SetTransform (index : nat) (scale : R)
| SetOpacity (i : nat) (opacity : JS.number)
| ScrollTo (x y : Q)
| Alert (msg : string)
| Play
| Pause
| SetTextContent (label : string).

Record Page : Type := mkPage {
  pageYOffset : Q;                  (* window.pageYOffset *)
  documentElement_scrollTop : Q;    (* document.documentElement.scrollTop *)
  scrollContainer_scrollHeight : Q; (* scrollContainer.scrollHeight *)
  innerHeight : Q;                  (* window.innerHeight *)
  body_backgroundColor : option hsl;
  shapes : list R;                  (* scale of each .shape, in document order *)
  messages : list JS.number;        (* opacity of each .affirmation *)
  ambientAudio_src : string;
  ambientAudio_paused : bool;
  audioToggle_textContent : string;
  log : list effect
}.

(** ** handleScroll *)

Definition messagePositions : list Q := [0.10; 0.30; 0.50; 0.70; 0.90].

Definition fadeRange : Q := 0.12.

(** Lines 48-50. *)
Definition scrollTop (pg : Page) : Q :=
  JS.or (pageYOffset pg) (documentElement_scrollTop pg).

Definition totalScroll (pg : Page) : Q :=
  scrollContainer_scrollHeight pg - innerHeight pg.

Definition progress_of (scrollTop totalScroll : Q) : Q :=
  if JS.gt totalScroll 0
  then JS.Math_min 1 (JS.Math_max 0 (scrollTop / totalScroll))
  else 0.

Definition progress (pg : Page) : Q :=
  progress_of (scrollTop pg) (totalScroll pg).

(** Writes to the host.  Each one changes the field it names and is recorded
    at the end of [log]. *)

Definition record (e : effect) (pg : Page) : Page :=
  mkPage (pageYOffset pg) (documentElement_scrollTop pg)
         (scrollContainer_scrollHeight pg) (innerHeight pg)
         (body_backgroundColor pg) (shapes pg) (messages pg)
         (ambientAudio_src pg) (ambientAudio_paused pg)
         (audioToggle_textContent pg) (log pg ++ [e]).

Fixpoint list_set {A : Type} (l : list A) (i : nat) (x : A) : list A :=
  match l, i with
  | [], _ => []
  | _ :: l', O => x :: l'
  | y :: l', S i' => y :: list_set l' i' x
  end.

Definition set_backgroundColor (c : hsl) (pg : Page) : Page :=
  record (SetBackgroundColor c)
    (mkPage (pageYOffset pg) (documentElement_scrollTop pg)
            (scrollContainer_scrollHeight pg) (innerHeight pg)
            (Some c) (shapes pg) (messages pg)
            (ambientAudio_src pg) (ambientAudio_paused pg)
            (audioToggle_textContent pg) (log pg)).

Definition set_transform (index : nat) (scale : R) (pg : Page) : Page :=
  record (SetTransform index scale)
    (mkPage (pageYOffset pg) (documentElement_scrollTop pg)
            (scrollContainer_scrollHeight pg) (innerHeight pg)
            (body_backgroundColor pg) (list_set (shapes pg) index scale)
            (messages pg)
            (ambientAudio_src pg) (ambientAudio_paused pg)
            (audioToggle_textContent pg) (log pg)).

Definition set_opacity (i : nat) (opacity : JS.number) (pg : Page) : Page :=
  record (SetOpacity i opacity)
    (mkPage (pageYOffset pg) (documentElement_scrollTop pg)
            (scrollContainer_scrollHeight pg) (innerHeight pg)
            (body_backgroundColor pg) (shapes pg)
            (list_set (messages pg) i opacity)
            (ambientAudio_src pg) (ambientAudio_paused pg)
            (audioToggle_textContent pg) (log pg)).

(** [window.scrollTo(x, y)]: the vertical offset of the window becomes [y];
    both names of that offset read it afterwards.  The host's clamping of
    the requested offset to the scroll range of the document is left out. *)
Definition scrollTo (x y : Q) (pg : Page) : Page :=
  record (ScrollTo x y)
    (mkPage y y
            (scrollContainer_scrollHeight pg) (innerHeight pg)
            (body_backgroundColor pg) (shapes pg) (messages pg)
            (ambientAudio_src pg) (ambientAudio_paused pg)
            (audioToggle_textContent pg) (log pg)).

(** [nodes.forEach((node, index) => ...)] over a static node list: the
    callback runs once per index, in order; it reaches the node through its
    index in the page. *)
Definition forEach {A : Type} (nodes : list A)
    (callback : nat -> Page -> Page) (pg : Page) : Page :=
  fold_left (fun pg index => callback index pg) (seq 0 (List.length nodes)) pg.

Local Open Scope R_scope.

(** Lines 56-57. *)
Definition hue (progress : Q) : Q := (200 + progress * 100)%Q.

Definition lightness (progress : Q) : R :=
  60 + sin (Q2R progress * PI) * 10.

Definition background (progress : Q) : hsl :=
  mkHsl (hue progress) 60%Q (lightness progress).

(** Lines 70-72; [length] is [shapes.length]. *)
Definition phaseOffset (index length : nat) : R :=
  (INR index * PI) / INR length.

Definition phase (progress : Q) (index length : nat) : R :=
  Q2R progress * 8 * PI + phaseOffset index length.

Definition scale (progress : Q) (index length : nat) : R :=
  0.8 + sin (phase progress index length) * 0.2.

Local Close Scope R_scope.

(** Lines 78-86. *)
Definition opacity (progress : Q) (i : nat) : JS.number :=
  let target := JS.index messagePositions i in
  let diff := JS.Math_abs (JS.sub (JS.Num progress) (JS.to_number target)) in
  if JS.lt diff (JS.Num fadeRange)
  then JS.sub (JS.Num 1) (JS.div diff (JS.Num fadeRange))
  else JS.Num 0.

(** The three visual steps, lines 56-88. *)
Definition paint (progress : Q) (pg : Page) : Page :=
  let pg := set_backgroundColor (background progress) pg in
  let pg :=
    forEach (shapes pg)
      (fun index => set_transform index (scale progress index (List.length (shapes pg))))
      pg in
  forEach (messages pg) (fun i => set_opacity i (opacity progress i)) pg.

Definition handleScroll (pg : Page) : Page :=
  let progress := progress pg in
  let pg := paint progress pg in
  if JS.ge progress 0.99
  then scrollTo 0 1 pg
  else pg.

(** ** The click handler of the audio toggle *)

(** How the promise returned by [ambientAudio.play()] settles; the host
    decides. *)
Inductive settled : Type :=
| Fulfilled
| Rejected.

Definition alert (msg : string) (pg : Page) : Page :=
  record (Alert msg) pg.

(** [ambientAudio.play()]: the request is made; the audio leaves the paused
    state when the host lets it start.  What [paused] reads after a rejected
    request is the host's choice, not the script's; no property below that
    speaks of a rejected request says what it is. *)
Definition play (outcome : settled) (pg : Page) : Page :=
  record Play
    (mkPage (pageYOffset pg) (documentElement_scrollTop pg)
            (scrollContainer_scrollHeight pg) (innerHeight pg)
            (body_backgroundColor pg) (shapes pg) (messages pg)
            (ambientAudio_src pg)
            (match outcome with
             | Fulfilled => false
             | Rejected => ambientAudio_paused pg
             end)
            (audioToggle_textContent pg) (log pg)).

Definition pause (pg : Page) : Page :=
  record Pause
    (mkPage (pageYOffset pg) (documentElement_scrollTop pg)
            (scrollContainer_scrollHeight pg) (innerHeight pg)
            (body_backgroundColor pg) (shapes pg) (messages pg)
            (ambientAudio_src pg) true
            (audioToggle_textContent pg) (log pg)).

Definition set_textContent (label : string) (pg : Page) : Page :=
  record (SetTextContent label)
    (mkPage (pageYOffset pg) (documentElement_scrollTop pg)
            (scrollContainer_scrollHeight pg) (innerHeight pg)
            (body_backgroundColor pg) (shapes pg) (messages pg)
            (ambientAudio_src pg) (ambientAudio_paused pg)
            label (log pg)).

(** [promise.catch(onRejected)]: the callback runs only on rejection, and
    after the synchronous rest of the click handler. *)
Definition catch (outcome : settled) (onRejected : Page -> Page)
    (pg : Page) : Page :=
  match outcome with
  | Fulfilled => pg
  | Rejected => onRejected pg
  end.

(** Lines 118-134. *)
Definition audioToggle_click (outcome : settled) (pg : Page) : Page :=
  if String.eqb (ambientAudio_src pg) EmptyString
  then alert "Please add an audio source in the HTML to enable sound."%string pg
  else if ambientAudio_paused pg
  then
    let pg := play outcome pg in
    let pg := set_textContent "Pause Sound"%string pg in
    catch outcome (fun pg => pg) pg
  else
    let pg := pause pg in
    set_textContent "Play Sound"%string pg.

(** ** Closed forms used to state the properties *)

(** The spec's [clamp01]. *)
Definition clamp01 (x : Q) : Q := JS.Math_min 1 (JS.Math_max 0 x).

(** The spec's formula for the progress, algorithm step 1. *)
Definition spec_progress (scrollOffset range : Q) : Q :=
  clamp01 (scrollOffset / Qmax 1 range).

(** The spec's formula for the opacity, algorithm step 4. *)
Definition spec_opacity (progress target : Q) : Q :=
  Qmax 0 (1 - Qabs (progress - target) / 0.12).

(** Writing [f i] at every index [i] of [idxs], one after the other: what a
    [forEach] whose callback sets one attribute does to that attribute. *)
Definition write_all {A : Type} (f : nat -> A) (idxs : list nat)
    (l : list A) : list A :=
  fold_left (fun l i => list_set l i (f i)) idxs l.

(** The writes of the three visual steps for a progress value, in order. *)
Definition visual_effects (progress : Q) (n m : nat) : list effect :=
  [SetBackgroundColor (background progress)]
  ++ map (fun index => SetTransform index (scale progress index n)) (seq 0 n)
  ++ map (fun i => SetOpacity i (opacity progress i)) (seq 0 m).

(** The page after the three visual steps. *)
Definition painted (progress : Q) (pg : Page) : Page :=
  let n := List.length (shapes pg) in
  let m := List.length (messages pg) in
  mkPage (pageYOffset pg) (documentElement_scrollTop pg)
         (scrollContainer_scrollHeight pg) (innerHeight pg)
         (Some (background progress))
         (map (fun index => scale progress index n) (seq 0 n))
         (map (fun i => opacity progress i) (seq 0 m))
         (ambientAudio_src pg) (ambientAudio_paused pg)
         (audioToggle_textContent pg)
         (log pg ++ visual_effects progress n m).

(** A page scrolled to [y], with a container of height [scrollHeight] in a
    viewport of height [innerHeight], [n] shapes and [m] messages, the audio
    paused and its source set. *)
Definition page_at (y scrollHeight innerHeight : Q) (n m : nat) : Page :=
  mkPage y y scrollHeight innerHeight None
         (repeat 1%R n) (repeat (JS.Num 0) m)
         "ambient.mp3"%string true "Play Sound"%string [].

(** A page whose audio element has no source. *)
Definition page_without_source : Page :=
  mkPage 0 0 130 30 None [] [] EmptyString true "Play Sound"%string [].

(** ** The handlers as the host runs them *)

(** What can happen to the page once the script is set up (lines 106-107 and
    118): the host moves the scroll offset, the host runs [handleScroll] (it
    is registered for the scroll event of the window and of the document),
    or the user clicks the audio toggle. *)
Inductive event : Type :=
| HostScroll (y : Q)
| RunHandleScroll
| Click (outcome : settled).

(** The host moves the window to offset [y]; the script writes nothing. *)
Definition host_scroll (y : Q) (pg : Page) : Page :=
  mkPage y y
         (scrollContainer_scrollHeight pg) (innerHeight pg)
         (body_backgroundColor pg) (shapes pg) (messages pg)
         (ambientAudio_src pg) (ambientAudio_paused pg)
         (audioToggle_textContent pg) (log pg).

Definition dispatch (e : event) (pg : Page) : Page :=
  match e with
  | HostScroll y => host_scroll y pg
  | RunHandleScroll => handleScroll pg
  | Click outcome => audioToggle_click outcome pg
  end.

Definition run (events : list event) (pg : Page) : Page :=
  fold_left (fun pg e => dispatch e pg) events pg.

(** A playback request or a stop of the audio. *)
Definition is_audio_effect (e : effect) : bool :=
  match e with
  | Play | Pause => true
  | _ => false
  end.

(** * Properties *)

(** ** The spec's scenarios, evaluated *)

Example wrap_scenario_progress :
  progress (page_at 100 200 100 2 5) == 1.
Proof. reflexivity. Qed.

Example no_range_progress :
  progress (page_at 40 30 30 2 5) = 0 /\ progress (page_at 40 20 30 2 5) = 0.
Proof. split; reflexivity. Qed.

Example fallback_scroll_offset :
  scrollTop (mkPage 0 25 130 30 None [] [] EmptyString true EmptyString []) = 25.
Proof. reflexivity. Qed.

Example message_scenario :
  progress (page_at 30 130 30 0 5) == 0.30 /\
  JS.lt (JS.Num (Qabs (0.30 - 0.10))) (JS.Num fadeRange) = false /\
  JS.lt (JS.Num (Qabs (0.30 - 0.30))) (JS.Num fadeRange) = true.
Proof. repeat split. Qed.

Example toggle_scenario_3 :
  audioToggle_textContent
    (audioToggle_click Fulfilled
       (audioToggle_click Fulfilled (page_at 0 130 30 3 5)))
  = "Play Sound"%string /\
  log (audioToggle_click Fulfilled
         (audioToggle_click Fulfilled (page_at 0 130 30 3 5)))
  = [Play; SetTextContent "Pause Sound"%string;
     Pause; SetTextContent "Play Sound"%string].
Proof. split; reflexivity. Qed.

(** ** Comparisons *)

Lemma gt_true_iff (a b : Q) : JS.gt a b = true <-> b < a.
Proof.
  unfold JS.gt. rewrite negb_true_iff, <- not_true_iff_false, Qle_bool_iff.
  split; [apply Qnot_le_lt | apply Qlt_not_le].
Qed.

Lemma gt_false_iff (a b : Q) : JS.gt a b = false <-> a <= b.
Proof.
  unfold JS.gt. rewrite negb_false_iff. apply Qle_bool_iff.
Qed.

Lemma ge_true_iff (a b : Q) : JS.ge a b = true <-> b <= a.
Proof. unfold JS.ge. apply Qle_bool_iff. Qed.

Lemma lt_Num_true_iff (x y : Q) : JS.lt (JS.Num x) (JS.Num y) = true <-> x < y.
Proof. exact (gt_true_iff y x). Qed.

Lemma lt_Num_false_iff (x y : Q) : JS.lt (JS.Num x) (JS.Num y) = false <-> y <= x.
Proof. exact (gt_false_iff y x). Qed.

(** ** The clamp *)

Lemma clamp01_bounds (x : Q) : 0 <= clamp01 x <= 1.
Proof.
  unfold clamp01, JS.Math_min, JS.Math_max. split.
  - apply Q.min_glb; [discriminate | apply Q.le_max_l].
  - apply Q.le_min_l.
Qed.

Lemma clamp01_mono (x y : Q) : x <= y -> clamp01 x <= clamp01 y.
Proof.
  intros Hxy. unfold clamp01, JS.Math_min, JS.Math_max.
  apply Q.min_le_compat_l, Q.max_le_compat_l, Hxy.
Qed.

Lemma clamp01_compat (x y : Q) : x == y -> clamp01 x == clamp01 y.
Proof.
  intros Hxy. apply Qle_antisym; apply clamp01_mono; rewrite Hxy; apply Qle_refl.
Qed.

Lemma progress_of_pos (s t : Q) : 0 < t -> progress_of s t = clamp01 (s / t).
Proof.
  intros Ht. unfold progress_of.
  apply gt_true_iff in Ht. rewrite Ht. reflexivity.
Qed.

Lemma progress_of_nonpos (s t : Q) : t <= 0 -> progress_of s t = 0.
Proof.
  intros Ht. unfold progress_of.
  apply gt_false_iff in Ht. rewrite Ht. reflexivity.
Qed.

Lemma progress_of_bounds (s t : Q) : 0 <= progress_of s t <= 1.
Proof.
  destruct (Qlt_le_dec 0 t) as [Ht | Ht].
  - rewrite (progress_of_pos s t Ht). apply clamp01_bounds.
  - rewrite (progress_of_nonpos s t Ht). split; discriminate.
Qed.

Lemma div_mono (s1 s2 t : Q) : 0 < t -> s1 <= s2 -> s1 / t <= s2 / t.
Proof.
  intros Ht Hs. unfold Qdiv.
  apply Qmult_le_compat_r; [exact Hs |].
  apply Qlt_le_weak, Qinv_lt_0_compat, Ht.
Qed.

(** ** Writing a list by index *)

Section ListSet.
Context {A : Type}.

Lemma list_set_length (l : list A) (i : nat) (x : A) :
  List.length (list_set l i x) = List.length l.
Proof.
  revert i. induction l as [| y l IH]; intros [| i]; simpl; auto.
Qed.

Lemma nth_error_list_set_eq (l : list A) (i : nat) (x : A) :
  (i < List.length l)%nat -> nth_error (list_set l i x) i = Some x.
Proof.
  revert i. induction l as [| y l IH]; intros [| i] Hi; simpl in *;
    try lia; [reflexivity | apply IH; lia].
Qed.

Lemma nth_error_list_set_neq (l : list A) (i j : nat) (x : A) :
  i <> j -> nth_error (list_set l i x) j = nth_error l j.
Proof.
  revert i j. induction l as [| y l IH]; intros [| i] [| j] Hij; simpl;
    try reflexivity; try congruence.
  apply IH. congruence.
Qed.

Variable f : nat -> A.

Lemma write_all_length (idxs : list nat) (l : list A) :
  List.length (write_all f idxs l) = List.length l.
Proof.
  revert l. induction idxs as [| i idxs IH]; intros l; [reflexivity |].
  cbn [write_all fold_left]. fold (write_all f idxs (list_set l i (f i))).
  rewrite IH. apply list_set_length.
Qed.

Lemma write_all_other (idxs : list nat) (l : list A) (j : nat) :
  ~ In j idxs -> nth_error (write_all f idxs l) j = nth_error l j.
Proof.
  revert l. induction idxs as [| i idxs IH]; intros l Hj; [reflexivity |].
  cbn [write_all fold_left]. fold (write_all f idxs (list_set l i (f i))).
  rewrite IH by (intros H; apply Hj; right; exact H).
  apply nth_error_list_set_neq. intros ->. apply Hj. left. reflexivity.
Qed.

Lemma write_all_written (idxs : list nat) (l : list A) (j : nat) :
  In j idxs -> (j < List.length l)%nat ->
  nth_error (write_all f idxs l) j = Some (f j).
Proof.
  revert l. induction idxs as [| i idxs IH]; intros l Hin Hj; [contradiction |].
  cbn [write_all fold_left]. fold (write_all f idxs (list_set l i (f i))).
  destruct (in_dec Nat.eq_dec j idxs) as [Hrest | Hrest].
  - apply IH; [exact Hrest | rewrite list_set_length; exact Hj].
  - destruct Hin as [-> | Hin]; [| contradiction].
    rewrite write_all_other by exact Hrest.
    apply nth_error_list_set_eq, Hj.
Qed.

Lemma write_all_seq (l : list A) :
  write_all f (seq 0 (List.length l)) l = map f (seq 0 (List.length l)).
Proof.
  apply nth_error_ext. intros j.
  destruct (Nat.lt_ge_cases j (List.length l)) as [Hj | Hj].
  - rewrite write_all_written by (rewrite ?in_seq; lia || exact Hj).
    rewrite nth_error_map, nth_error_nth' with (d := O) by (rewrite length_seq; exact Hj).
    rewrite seq_nth by exact Hj. reflexivity.
  - transitivity (@None A); [| symmetry];
      apply nth_error_None;
      rewrite ?write_all_length, ?length_map, ?length_seq; exact Hj.
Qed.

End ListSet.

(** ** The two loops and the visual steps in closed form *)

Lemma shapes_loop (f : nat -> R) (idxs : list nat) (pg : Page) :
  fold_left (fun pg index => set_transform index (f index) pg) idxs pg =
  mkPage (pageYOffset pg) (documentElement_scrollTop pg)
         (scrollContainer_scrollHeight pg) (innerHeight pg)
         (body_backgroundColor pg) (write_all f idxs (shapes pg)) (messages pg)
         (ambientAudio_src pg) (ambientAudio_paused pg)
         (audioToggle_textContent pg)
         (log pg ++ map (fun index => SetTransform index (f index)) idxs).
Proof.
  revert pg. induction idxs as [| i idxs IH]; intros pg.
  - destruct pg; simpl. rewrite app_nil_r. reflexivity.
  - cbn [fold_left]. rewrite IH. unfold set_transform, record; simpl.
    rewrite <- app_assoc. reflexivity.
Qed.

Lemma messages_loop (f : nat -> JS.number) (idxs : list nat) (pg : Page) :
  fold_left (fun pg i => set_opacity i (f i) pg) idxs pg =
  mkPage (pageYOffset pg) (documentElement_scrollTop pg)
         (scrollContainer_scrollHeight pg) (innerHeight pg)
         (body_backgroundColor pg) (shapes pg) (write_all f idxs (messages pg))
         (ambientAudio_src pg) (ambientAudio_paused pg)
         (audioToggle_textContent pg)
         (log pg ++ map (fun i => SetOpacity i (f i)) idxs).
Proof.
  revert pg. induction idxs as [| i idxs IH]; intros pg.
  - destruct pg; simpl. rewrite app_nil_r. reflexivity.
  - cbn [fold_left]. rewrite IH. unfold set_opacity, record; simpl.
    rewrite <- app_assoc. reflexivity.
Qed.

Lemma paint_painted (p : Q) (pg : Page) : paint p pg = painted p pg.
Proof.
  unfold paint, forEach. rewrite shapes_loop, messages_loop.
  unfold painted, visual_effects, set_backgroundColor, record; simpl.
  rewrite !write_all_seq, <- !app_assoc. reflexivity.
Qed.

Lemma handleScroll_wrap (pg : Page) :
  0.99 <= progress pg ->
  handleScroll pg = scrollTo 0 1 (painted (progress pg) pg).
Proof.
  intros H. unfold handleScroll. rewrite paint_painted.
  apply ge_true_iff in H. rewrite H. reflexivity.
Qed.

Lemma handleScroll_no_wrap (pg : Page) :
  progress pg < 0.99 ->
  handleScroll pg = painted (progress pg) pg.
Proof.
  intros H. unfold handleScroll. rewrite paint_painted.
  destruct (JS.ge (progress pg) 0.99) eqn:E; [| reflexivity].
  apply ge_true_iff in E. exfalso. exact (Qlt_not_le _ _ H E).
Qed.

Lemma handleScroll_shapes (pg : Page) :
  shapes (handleScroll pg) =
  map (fun index => scale (progress pg) index (List.length (shapes pg)))
      (seq 0 (List.length (shapes pg))).
Proof.
  unfold handleScroll. rewrite paint_painted.
  destruct (JS.ge (progress pg) 0.99); reflexivity.
Qed.

Lemma handleScroll_messages (pg : Page) :
  messages (handleScroll pg) =
  map (fun i => opacity (progress pg) i) (seq 0 (List.length (messages pg))).
Proof.
  unfold handleScroll. rewrite paint_painted.
  destruct (JS.ge (progress pg) 0.99); reflexivity.
Qed.

Lemma handleScroll_background (pg : Page) :
  body_backgroundColor (handleScroll pg) = Some (background (progress pg)).
Proof.
  unfold handleScroll. rewrite paint_painted.
  destruct (JS.ge (progress pg) 0.99); reflexivity.
Qed.

Lemma nth_error_map_seq {A : Type} (f : nat -> A) (n i : nat) :
  (i < n)%nat -> nth_error (map f (seq 0 n)) i = Some (f i).
Proof.
  intros Hi. rewrite nth_error_map, nth_error_nth' with (d := O)
    by (rewrite length_seq; exact Hi).
  rewrite seq_nth by exact Hi. reflexivity.
Qed.

(** ** Progress *)

(** C1: whatever the scroll offset, the viewport height and the scroll
    height of the container are, the progress computed by [handleScroll] lies
    in [0, 1]; and when the scrollable range (scroll height minus viewport
    height) is zero or negative, the progress is 0, whatever the offset. *)
Theorem progress_in_unit_interval (pg : Page) :
  0 <= progress pg <= 1 /\
  (scrollContainer_scrollHeight pg - innerHeight pg <= 0 -> progress pg = 0).
Proof.
  split.
  - apply progress_of_bounds.
  - intros H. apply progress_of_nonpos. exact H.
Qed.

(** C2, as the spec states it (divisor floored at 1), fails: with a
    scrollable range of 1/2 and a scroll offset of 1/4 the handler computes
    1/2, the spec's formula 1/4. *)
Lemma progress_divisor_not_floored :
  0 < totalScroll (page_at (1 # 4) (3 # 2) 1 0 0) /\
  progress (page_at (1 # 4) (3 # 2) 1 0 0) == 1 # 2 /\
  spec_progress (scrollTop (page_at (1 # 4) (3 # 2) 1 0 0))
                (totalScroll (page_at (1 # 4) (3 # 2) 1 0 0)) == 1 # 4 /\
  ~ progress (page_at (1 # 4) (3 # 2) 1 0 0) ==
    spec_progress (scrollTop (page_at (1 # 4) (3 # 2) 1 0 0))
                  (totalScroll (page_at (1 # 4) (3 # 2) 1 0 0)).
Proof.
  repeat split; try (vm_compute; reflexivity).
  intros H. vm_compute in H. discriminate H.
Qed.

(** C2, amended: for every scroll offset and every positive scrollable
    range, the progress is the offset divided by the range itself, clamped
    to [0, 1]; this is the spec's formula (divisor floored at 1) whenever the
    range is at least 1. *)
Theorem progress_divides_by_range (pg : Page) :
  0 < totalScroll pg ->
  progress pg = clamp01 (scrollTop pg / totalScroll pg) /\
  (1 <= totalScroll pg ->
   progress pg == spec_progress (scrollTop pg) (totalScroll pg)).
Proof.
  intros Hpos. split.
  - apply progress_of_pos, Hpos.
  - intros H1. unfold progress. rewrite (progress_of_pos _ _ Hpos).
    unfold spec_progress. apply clamp01_compat.
    rewrite (Q.max_r 1 (totalScroll pg) H1). reflexivity.
Qed.

Lemma progress_divides_by_range_witness :
  0 < totalScroll (page_at 30 130 30 3 5) /\
  progress (page_at 30 130 30 3 5) =
    clamp01 (scrollTop (page_at 30 130 30 3 5) /
             totalScroll (page_at 30 130 30 3 5)) /\
  (1 <= totalScroll (page_at 30 130 30 3 5) ->
   progress (page_at 30 130 30 3 5) ==
     spec_progress (scrollTop (page_at 30 130 30 3 5))
                   (totalScroll (page_at 30 130 30 3 5))).
Proof.
  split; [reflexivity |].
  apply (progress_divides_by_range (page_at 30 130 30 3 5)). reflexivity.
Defined.

(** C5: with the viewport height and the scroll height of the container
    fixed and a positive scrollable range, the progress does not decrease
    when the scroll offset grows. *)
Theorem progress_monotone (pg1 pg2 : Page) :
  scrollContainer_scrollHeight pg1 = scrollContainer_scrollHeight pg2 ->
  innerHeight pg1 = innerHeight pg2 ->
  0 < scrollContainer_scrollHeight pg1 - innerHeight pg1 ->
  scrollTop pg1 <= scrollTop pg2 ->
  progress pg1 <= progress pg2.
Proof.
  intros Hh Hv Hpos Hs. unfold progress, totalScroll.
  rewrite <- Hh, <- Hv. rewrite !progress_of_pos by exact Hpos.
  apply clamp01_mono, div_mono; assumption.
Qed.

Lemma progress_monotone_witness :
  scrollTop (page_at 30 130 30 3 5) <= scrollTop (page_at 45 130 30 3 5) /\
  progress (page_at 30 130 30 3 5) <= progress (page_at 45 130 30 3 5).
Proof.
  split; [discriminate |].
  apply (progress_monotone (page_at 30 130 30 3 5) (page_at 45 130 30 3 5));
    [reflexivity | reflexivity | reflexivity | discriminate].
Defined.

(** ** Opacity of the messages *)

Lemma div_fadeRange (d : Q) : d / fadeRange == d * (100 # 12).
Proof. unfold Qdiv. apply Qmult_comp; reflexivity. Qed.

Lemma opacity_with_target (p : Q) (i : nat) (t : Q) :
  nth_error messagePositions i = Some t ->
  opacity p i =
  if JS.lt (JS.Num (Qabs (p - t))) (JS.Num fadeRange)
  then JS.Num (1 - Qabs (p - t) / fadeRange)
  else JS.Num 0.
Proof.
  intros Ht. unfold opacity, JS.index. rewrite Ht. reflexivity.
Qed.

Lemma opacity_without_target (p : Q) (i : nat) :
  (5 <= i)%nat -> opacity p i = JS.Num 0.
Proof.
  intros Hi. unfold opacity, JS.index.
  replace (nth_error messagePositions i) with (@None Q)
    by (symmetry; apply nth_error_None; exact Hi).
  reflexivity.
Qed.

Lemma Qabs_zero_iff (x : Q) : Qabs x == 0 <-> x == 0.
Proof.
  split; intros H.
  - apply Qle_antisym.
    + rewrite <- H. apply Qle_Qabs.
    + assert (Hn : - x <= 0) by (rewrite <- H, <- Qabs_opp; apply Qle_Qabs).
      lra.
  - rewrite H. reflexivity.
Qed.

Lemma handleScroll_opacity (pg : Page) (i : nat) :
  (i < List.length (messages pg))%nat ->
  nth_error (messages (handleScroll pg)) i = Some (opacity (progress pg) i).
Proof.
  intros Hi. rewrite handleScroll_messages.
  apply (nth_error_map_seq (fun i => opacity (progress pg) i)), Hi.
Qed.

(** C3: for a message at index [i] whose target [t] is the [i]-th of
    0.10, 0.30, 0.50, 0.70, 0.90, and for every progress [p], the opacity
    that the handler assigns is [max(0, 1 - |p - t| / 0.12)]: it is 1 exactly
    when [p] equals [t], it is 0 when [|p - t| >= 0.12], and it is
    [1 - |p - t| / 0.12] in between. *)
Theorem opacity_is_tent (i : nat) (t : Q) :
  nth_error messagePositions i = Some t ->
  (forall pg : Page,
     (i < List.length (messages pg))%nat ->
     nth_error (messages (handleScroll pg)) i = Some (opacity (progress pg) i)) /\
  (forall p : Q,
     exists o : Q,
       opacity p i = JS.Num o /\
       o == spec_opacity p t /\
       (o == 1 <-> p == t) /\
       (0.12 <= Qabs (p - t) -> o == 0) /\
       (Qabs (p - t) < 0.12 -> o == 1 - Qabs (p - t) / 0.12)).
Proof.
  intros Ht. split; [intros pg; apply handleScroll_opacity |].
  intros p. rewrite (opacity_with_target p i t Ht).
  assert (Hd : 0 <= Qabs (p - t)) by apply Qabs_nonneg.
  assert (Hdiv := div_fadeRange (Qabs (p - t))). unfold fadeRange in *.
  assert (Hz : Qabs (p - t) == 0 <-> p == t).
  { rewrite Qabs_zero_iff. split; intros H; lra. }
  destruct (JS.lt (JS.Num (Qabs (p - t))) (JS.Num 0.12)) eqn:E.
  - apply lt_Num_true_iff in E.
    exists (1 - Qabs (p - t) / 0.12). split; [reflexivity |].
    split; [| split; [split | split]].
    + unfold spec_opacity. symmetry. apply Q.max_r. rewrite Hdiv. lra.
    + intros H. apply Hz. rewrite Hdiv in H. lra.
    + intros H. apply Hz in H. rewrite Hdiv, H. reflexivity.
    + intros H. exfalso. lra.
    + intros _. reflexivity.
  - apply lt_Num_false_iff in E.
    exists 0. split; [reflexivity |].
    split; [| split; [split | split]].
    + unfold spec_opacity. symmetry. apply Q.max_l. rewrite Hdiv. lra.
    + intros H. exfalso. lra.
    + intros H. apply Hz in H. exfalso. lra.
    + intros _. reflexivity.
    + intros H. exfalso. lra.
Qed.

Lemma opacity_is_tent_witness :
  nth_error messagePositions 1 = Some 0.30 /\
  (exists o : Q,
     opacity 0.30 1 = JS.Num o /\ o == 1) /\
  (exists o : Q,
     opacity 0.10 1 = JS.Num o /\ o == 0) /\
  (exists o : Q,
     opacity 0.24 1 = JS.Num o /\ o == 1 # 2).
Proof.
  split; [reflexivity |].
  destruct (opacity_is_tent 1 0.30 eq_refl) as [_ H].
  repeat split.
  - destruct (H 0.30) as [o [Ho [_ [H1 _]]]].
    exists o. split; [exact Ho | apply H1; reflexivity].
  - destruct (H 0.10) as [o [Ho [_ [_ [H0 _]]]]].
    exists o. split; [exact Ho | apply H0; discriminate].
  - destruct (H 0.24) as [o [Ho [_ [_ [_ Hl]]]]].
    exists o. split; [exact Ho |]. rewrite Hl by reflexivity. reflexivity.
Defined.

(** C10: for a message whose index is 5 or more, the target lookup gives
    [undefined], the difference is [NaN], the test [diff < 0.12] is false,
    and every run of the handler sets its opacity to 0: the handler has a
    result on such a page. *)
Theorem opacity_zero_past_targets (pg : Page) (i : nat) :
  (5 <= i)%nat ->
  (i < List.length (messages pg))%nat ->
  JS.index messagePositions i = JS.Undefined /\
  JS.Math_abs (JS.sub (JS.Num (progress pg))
                      (JS.to_number (JS.index messagePositions i))) = JS.NaN /\
  JS.lt JS.NaN (JS.Num fadeRange) = false /\
  nth_error (messages (handleScroll pg)) i = Some (JS.Num 0) /\
  In (SetOpacity i (JS.Num 0)) (log (handleScroll pg)).
Proof.
  intros H5 Hi.
  assert (Hu : JS.index messagePositions i = JS.Undefined).
  { unfold JS.index.
    replace (nth_error messagePositions i) with (@None Q)
      by (symmetry; apply nth_error_None; exact H5).
    reflexivity. }
  split; [exact Hu |]. rewrite Hu.
  split; [reflexivity |]. split; [reflexivity |]. split.
  - rewrite handleScroll_opacity by exact Hi.
    rewrite opacity_without_target by exact H5. reflexivity.
  - unfold handleScroll. rewrite paint_painted.
    assert (Hp : In (SetOpacity i (JS.Num 0))
                   (log (painted (progress pg) pg))).
    { unfold painted, visual_effects; cbn [log].
      rewrite !in_app_iff. right. right. right.
      rewrite in_map_iff. exists i. split.
      - rewrite opacity_without_target by exact H5. reflexivity.
      - apply in_seq. lia. }
    destruct (JS.ge (progress pg) 0.99); [| exact Hp].
    unfold scrollTo, record; cbn [log]. apply in_app_iff. left. exact Hp.
Qed.

Lemma opacity_zero_past_targets_witness :
  nth_error (messages (handleScroll (page_at 30 130 30 3 7))) 6
  = Some (JS.Num 0).
Proof.
  assert (H5 : (5 <= 6)%nat) by lia.
  assert (Hi : (6 < List.length (messages (page_at 30 130 30 3 7)))%nat)
    by (simpl; lia).
  exact (proj1 (proj2 (proj2 (proj2
    (opacity_zero_past_targets (page_at 30 130 30 3 7) 6 H5 Hi))))).
Defined.

(** ** The wrap *)

(** C4: when the computed progress is at least 0.99, the handler first
    writes the background colour, the scale of every shape and the opacity of
    every message, all from that progress, and only then sets the scroll
    offset, to 1; the scroll is its last write. *)
Theorem visuals_then_wrap (pg : Page) :
  0.99 <= progress pg ->
  handleScroll pg = scrollTo 0 1 (painted (progress pg) pg) /\
  log (handleScroll pg) =
    log pg
    ++ visual_effects (progress pg)
         (List.length (shapes pg)) (List.length (messages pg))
    ++ [ScrollTo 0 1] /\
  body_backgroundColor (handleScroll pg) = Some (background (progress pg)) /\
  shapes (handleScroll pg) =
    map (fun index => scale (progress pg) index (List.length (shapes pg)))
        (seq 0 (List.length (shapes pg))) /\
  messages (handleScroll pg) =
    map (fun i => opacity (progress pg) i)
        (seq 0 (List.length (messages pg))) /\
  pageYOffset (handleScroll pg) = 1 /\
  documentElement_scrollTop (handleScroll pg) = 1.
Proof.
  intros H. rewrite (handleScroll_wrap pg H).
  unfold scrollTo, record, painted; cbn.
  rewrite <- app_assoc. repeat split.
Qed.

Lemma visuals_then_wrap_witness :
  progress (page_at 100 200 100 2 5) == 1 /\
  log (handleScroll (page_at 100 200 100 2 5)) =
    log (page_at 100 200 100 2 5)
    ++ visual_effects (progress (page_at 100 200 100 2 5)) 2 5
    ++ [ScrollTo 0 1] /\
  pageYOffset (handleScroll (page_at 100 200 100 2 5)) = 1.
Proof.
  assert (H : 0.99 <= progress (page_at 100 200 100 2 5)) by discriminate.
  split; [reflexivity |].
  split; apply (visuals_then_wrap (page_at 100 200 100 2 5) H).
Defined.

(** ** Scale of the shapes *)

(** C6: for every progress [p] and every shape index among [n] shapes, the
    scale [0.8 + sin(p*8*PI + index*PI/n) * 0.2] lies in [0.6, 1.0], and it
    is the scale that the handler assigns to that shape. *)
Theorem scale_in_range (p : Q) (index n : nat) :
  (0.6 <= scale p index n <= 1.0)%R /\
  (forall pg : Page,
     progress pg = p -> List.length (shapes pg) = n -> (index < n)%nat ->
     nth_error (shapes (handleScroll pg)) index = Some (scale p index n)).
Proof.
  split.
  - unfold scale. pose proof (SIN_bound (phase p index n)) as Hs. lra.
  - intros pg <- <- Hi. rewrite handleScroll_shapes.
    apply (nth_error_map_seq
             (fun index => scale (progress pg) index (List.length (shapes pg)))),
          Hi.
Qed.

(** ** The audio toggle *)

(** C7, as the spec states it (label unchanged when playback fails), fails:
    with a source set and the audio paused, a click whose playback request
    is rejected changes the label from "Play Sound" to "Pause Sound". *)
Lemma rejected_play_changes_label :
  ambientAudio_src (page_at 0 130 30 3 5) <> EmptyString /\
  ambientAudio_paused (page_at 0 130 30 3 5) = true /\
  audioToggle_textContent (page_at 0 130 30 3 5) = "Play Sound"%string /\
  audioToggle_textContent (audioToggle_click Rejected (page_at 0 130 30 3 5))
    = "Pause Sound"%string /\
  audioToggle_textContent (audioToggle_click Rejected (page_at 0 130 30 3 5))
    <> audioToggle_textContent (page_at 0 130 30 3 5).
Proof.
  repeat split; discriminate.
Qed.

Lemma src_set (pg : Page) :
  ambientAudio_src pg <> EmptyString ->
  String.eqb (ambientAudio_src pg) EmptyString = false.
Proof. intros H. apply String.eqb_neq, H. Qed.

(** C7, amended: on the play branch (source set, audio paused), a rejected
    playback request is ignored: the click writes the one playback request
    and the label, so no notice is shown and no second request is made, and
    the label is set to "Pause Sound" all the same. *)
Theorem rejected_play_ignored (pg : Page) :
  ambientAudio_src pg <> EmptyString ->
  ambientAudio_paused pg = true ->
  log (audioToggle_click Rejected pg) =
    log pg ++ [Play; SetTextContent "Pause Sound"%string] /\
  audioToggle_textContent (audioToggle_click Rejected pg)
    = "Pause Sound"%string.
Proof.
  intros Hsrc Hp. unfold audioToggle_click.
  rewrite (src_set pg Hsrc), Hp. cbn. rewrite <- app_assoc.
  split; reflexivity.
Qed.

Lemma rejected_play_ignored_witness :
  log (audioToggle_click Rejected (page_at 0 130 30 3 5)) =
    [Play; SetTextContent "Pause Sound"%string] /\
  audioToggle_textContent (audioToggle_click Rejected (page_at 0 130 30 3 5))
    = "Pause Sound"%string.
Proof.
  apply (rejected_play_ignored (page_at 0 130 30 3 5));
    [discriminate | reflexivity].
Defined.

(** C8: a click with a source set and the audio paused requests playback
    and sets the label to "Pause Sound", whether the request is fulfilled or
    rejected. *)
Theorem play_branch_sets_label (outcome : settled) (pg : Page) :
  ambientAudio_src pg <> EmptyString ->
  ambientAudio_paused pg = true ->
  In Play (log (audioToggle_click outcome pg)) /\
  audioToggle_textContent (audioToggle_click outcome pg)
    = "Pause Sound"%string.
Proof.
  intros Hsrc Hp. unfold audioToggle_click.
  rewrite (src_set pg Hsrc), Hp.
  destruct outcome; cbn; (split; [| reflexivity]);
    rewrite <- app_assoc; apply in_app_iff; right; left; reflexivity.
Qed.

Lemma play_branch_sets_label_witness :
  (In Play (log (audioToggle_click Fulfilled (page_at 0 130 30 3 5))) /\
   audioToggle_textContent (audioToggle_click Fulfilled (page_at 0 130 30 3 5))
     = "Pause Sound"%string) /\
  (In Play (log (audioToggle_click Rejected (page_at 0 130 30 3 5))) /\
   audioToggle_textContent (audioToggle_click Rejected (page_at 0 130 30 3 5))
     = "Pause Sound"%string).
Proof.
  split; apply (play_branch_sets_label _ (page_at 0 130 30 3 5));
    (discriminate || reflexivity).
Defined.

(** C9: a click while the audio source is empty shows the notice and
    changes nothing else: the paused state and the label are as before, and
    no playback request is made. *)
Theorem empty_source_only_alerts (outcome : settled) (pg : Page) :
  ambientAudio_src pg = EmptyString ->
  log (audioToggle_click outcome pg) =
    log pg
    ++ [Alert "Please add an audio source in the HTML to enable sound."%string] /\
  ambientAudio_paused (audioToggle_click outcome pg) = ambientAudio_paused pg /\
  audioToggle_textContent (audioToggle_click outcome pg)
    = audioToggle_textContent pg /\
  ambientAudio_src (audioToggle_click outcome pg) = ambientAudio_src pg /\
  pageYOffset (audioToggle_click outcome pg) = pageYOffset pg /\
  body_backgroundColor (audioToggle_click outcome pg) = body_backgroundColor pg /\
  shapes (audioToggle_click outcome pg) = shapes pg /\
  messages (audioToggle_click outcome pg) = messages pg.
Proof.
  intros Hsrc. unfold audioToggle_click. rewrite Hsrc. cbn. repeat split. exact Hsrc.
Qed.

Lemma empty_source_only_alerts_witness :
  log (audioToggle_click Fulfilled page_without_source) =
    [Alert "Please add an audio source in the HTML to enable sound."%string] /\
  ambientAudio_paused (audioToggle_click Fulfilled page_without_source) = true /\
  audioToggle_textContent (audioToggle_click Fulfilled page_without_source)
    = "Play Sound"%string.
Proof.
  pose proof (empty_source_only_alerts Fulfilled page_without_source eq_refl)
    as [Hlog [Hpaused [Hlabel _]]].
  repeat split; assumption.
Defined.

(** * Further properties of the two handlers *)

(** ** Background colour *)

Lemma Q2R_unit (p : Q) : 0 <= p <= 1 -> (0 <= Q2R p <= 1)%R.
Proof.
  intros [H0 H1]. apply Qle_Rle in H0, H1.
  replace (Q2R 0) with 0%R in H0 by (unfold Q2R; simpl; lra).
  replace (Q2R 1) with 1%R in H1 by (unfold Q2R; simpl; lra).
  split; assumption.
Qed.

Lemma lightness_bounds (p : Q) :
  0 <= p <= 1 -> (60 <= lightness p <= 70)%R.
Proof.
  intros Hp. apply Q2R_unit in Hp. unfold lightness.
  pose proof PI_RGT_0 as Hpi.
  assert (H0 : (0 <= Q2R p * PI)%R) by nra.
  assert (H1 : (Q2R p * PI <= PI)%R) by nra.
  pose proof (sin_ge_0 _ H0 H1) as Hs0.
  pose proof (SIN_bound (Q2R p * PI)) as Hs1.
  lra.
Qed.

(** X1: the background colour that the handler writes has a hue between 200
    and 300, a saturation of 60 and a lightness between 60 and 70, whatever
    the page measures. *)
Theorem background_in_range (pg : Page) :
  exists c : hsl,
    body_backgroundColor (handleScroll pg) = Some c /\
    200 <= hsl_hue c <= 300 /\
    hsl_saturation c = 60 /\
    (60 <= hsl_lightness c <= 70)%R.
Proof.
  exists (background (progress pg)).
  pose proof (progress_of_bounds (scrollTop pg) (totalScroll pg)) as Hp.
  fold (progress pg) in Hp.
  split; [apply handleScroll_background |].
  split; [cbn [background hsl_hue]; unfold hue; lra |].
  split; [reflexivity |].
  apply lightness_bounds, Hp.
Qed.

(** ** The ends of the scroll range and the wrap threshold *)

Lemma clamp01_low (x : Q) : x <= 0 -> clamp01 x == 0.
Proof.
  intros Hx. unfold clamp01, JS.Math_min, JS.Math_max.
  rewrite (Q.max_l 0 x Hx). apply Q.min_r. discriminate.
Qed.

Lemma clamp01_high (x : Q) : 1 <= x -> clamp01 x == 1.
Proof.
  intros Hx. unfold clamp01, JS.Math_min, JS.Math_max.
  assert (H0 : 0 <= x) by lra.
  rewrite (Q.max_r 0 x H0). apply Q.min_l, Hx.
Qed.

Lemma clamp01_ge (c x : Q) : 0 < c -> c <= clamp01 x <-> c <= 1 /\ c <= x.
Proof.
  intros Hc. unfold clamp01, JS.Math_min, JS.Math_max.
  rewrite Q.min_glb_iff, Q.max_le_iff. split.
  - intros [H1 [H0 | Hx]]; [exfalso; lra | split; assumption].
  - intros [H1 Hx]. split; [exact H1 | right; exact Hx].
Qed.

Lemma div_ge_iff (c s t : Q) : 0 < t -> c <= s / t <-> c * t <= s.
Proof.
  intros Ht. split; intros H.
  - apply (Qmult_le_r _ _ (/ t)); [apply Qinv_lt_0_compat, Ht |].
    setoid_replace (c * t * / t) with c by (field; lra).
    exact H.
  - apply Qle_shift_div_l; assumption.
Qed.

Lemma progress_of_ge (s t : Q) :
  0.99 <= progress_of s t <-> 0 < t /\ 0.99 * t <= s.
Proof.
  destruct (Qlt_le_dec 0 t) as [Ht | Ht].
  - rewrite (progress_of_pos s t Ht), clamp01_ge by reflexivity.
    rewrite (div_ge_iff 0.99 s t Ht). split.
    + intros [_ H]. split; assumption.
    + intros [_ H]. split; [discriminate | exact H].
  - rewrite (progress_of_nonpos s t Ht). split.
    + intros H. exfalso. lra.
    + intros [H _]. exfalso. lra.
Qed.

(** X2: with a positive scrollable range, a scroll offset at or above the
    top (zero or negative, as while overscrolling) gives progress 0 and an
    offset at or past the range gives progress 1. *)
Theorem progress_at_the_ends (pg : Page) :
  0 < totalScroll pg ->
  (scrollTop pg <= 0 -> progress pg == 0) /\
  (totalScroll pg <= scrollTop pg -> progress pg == 1).
Proof.
  intros Ht. unfold progress. rewrite (progress_of_pos _ _ Ht). split; intros H.
  - apply clamp01_low. apply Qle_shift_div_r; [exact Ht | lra].
  - apply clamp01_high. apply Qle_shift_div_l; [exact Ht | lra].
Qed.

Lemma progress_at_the_ends_witness :
  progress (page_at (-5) 130 30 3 5) == 0 /\
  progress (page_at 250 130 30 3 5) == 1.
Proof.
  split.
  - apply (progress_at_the_ends (page_at (-5) 130 30 3 5));
      [reflexivity | discriminate].
  - apply (progress_at_the_ends (page_at 250 130 30 3 5));
      [reflexivity | discriminate].
Defined.

(** X3: when the scrollable range is zero or negative, or the computed
    progress is below 0.99, the handler writes the visuals only and leaves
    both readings of the scroll offset where they were; when the range is
    positive and the scroll offset is at or past it, the writes of the
    handler end with the scroll to 1. *)
Theorem wrap_cases (pg : Page) :
  (totalScroll pg <= 0 \/ progress pg < 0.99 ->
   log (handleScroll pg) =
     log pg
     ++ visual_effects (progress pg)
          (List.length (shapes pg)) (List.length (messages pg)) /\
   pageYOffset (handleScroll pg) = pageYOffset pg /\
   documentElement_scrollTop (handleScroll pg) = documentElement_scrollTop pg) /\
  (0 < totalScroll pg /\ totalScroll pg <= scrollTop pg ->
   log (handleScroll pg) =
     log pg
     ++ visual_effects (progress pg)
          (List.length (shapes pg)) (List.length (messages pg))
     ++ [ScrollTo 0 1]).
Proof.
  split; intros H.
  - assert (Hlt : progress pg < 0.99).
    { destruct H as [Ht | Hlt]; [| exact Hlt].
      unfold progress. rewrite (progress_of_nonpos _ _ Ht). reflexivity. }
    rewrite (handleScroll_no_wrap pg Hlt). repeat split.
  - assert (Hge : 0.99 <= progress pg).
    { apply progress_of_ge. destruct H as [Ht Hs]. split; [exact Ht | lra]. }
    rewrite (handleScroll_wrap pg Hge).
    unfold scrollTo, record, painted; cbn. rewrite <- app_assoc. reflexivity.
Qed.

(** ** Running the handler again *)

Lemma painted_lengths (p : Q) (pg : Page) :
  List.length (shapes (painted p pg)) = List.length (shapes pg) /\
  List.length (messages (painted p pg)) = List.length (messages pg).
Proof.
  unfold painted; cbn [shapes messages].
  rewrite !length_map, !length_seq. split; reflexivity.
Qed.

(** X4: below the wrap threshold a second run of the handler on the
    unchanged page writes the same values again: background, scales,
    opacities and scroll offset are what the first run left. *)
Theorem handleScroll_idempotent (pg : Page) :
  progress pg < 0.99 ->
  body_backgroundColor (handleScroll (handleScroll pg))
    = body_backgroundColor (handleScroll pg) /\
  shapes (handleScroll (handleScroll pg)) = shapes (handleScroll pg) /\
  messages (handleScroll (handleScroll pg)) = messages (handleScroll pg) /\
  pageYOffset (handleScroll (handleScroll pg)) = pageYOffset (handleScroll pg).
Proof.
  intros H. rewrite (handleScroll_no_wrap pg H).
  assert (Hp : progress (painted (progress pg) pg) = progress pg) by reflexivity.
  assert (H' : progress (painted (progress pg) pg) < 0.99) by (rewrite Hp; exact H).
  rewrite (handleScroll_no_wrap _ H'), Hp.
  unfold painted; cbn [body_backgroundColor shapes messages pageYOffset].
  rewrite !length_map, !length_seq. repeat split.
Qed.

Lemma handleScroll_idempotent_witness :
  shapes (handleScroll (handleScroll (page_at 30 130 30 3 5)))
    = shapes (handleScroll (page_at 30 130 30 3 5)) /\
  messages (handleScroll (handleScroll (page_at 30 130 30 3 5)))
    = messages (handleScroll (page_at 30 130 30 3 5)).
Proof.
  assert (H : progress (page_at 30 130 30 3 5) < 0.99) by reflexivity.
  split; apply (handleScroll_idempotent (page_at 30 130 30 3 5) H).
Defined.

Lemma progress_after_wrap (pg : Page) :
  0.99 <= progress pg ->
  progress (handleScroll pg) = progress_of 1 (totalScroll pg).
Proof.
  intros H. rewrite (handleScroll_wrap pg H). reflexivity.
Qed.

(** X5: after a wrap the handler sees the offset 1.  On a page whose
    scrollable range exceeds 100/99 the next run is below the threshold, so
    it writes the visuals and does not scroll again; on a page with a
    smaller range the next run wraps again. *)
Theorem wrap_then_next_run (pg : Page) :
  0.99 <= progress pg ->
  (100 # 99 < totalScroll pg ->
   progress (handleScroll pg) < 0.99 /\
   log (handleScroll (handleScroll pg)) =
     log (handleScroll pg)
     ++ visual_effects (progress (handleScroll pg))
          (List.length (shapes pg)) (List.length (messages pg))) /\
  (totalScroll pg <= 100 # 99 -> 0.99 <= progress (handleScroll pg)).
Proof.
  intros H.
  assert (Hpos : 0 < totalScroll pg).
  { apply progress_of_ge in H. tauto. }
  rewrite (progress_after_wrap pg H). split; intros Ht.
  - assert (Hlt : progress_of 1 (totalScroll pg) < 0.99).
    { apply Qnot_le_lt. intros Hge. apply progress_of_ge in Hge. lra. }
    split; [exact Hlt |].
    rewrite <- (progress_after_wrap pg H) in Hlt |- *.
    rewrite (handleScroll_no_wrap _ Hlt).
    rewrite (handleScroll_wrap pg H) at 2 3.
    unfold painted at 1; cbn [log].
    destruct (painted_lengths (progress pg) pg) as [Hn Hm].
    unfold scrollTo, record; cbn [shapes messages]. rewrite Hn, Hm.
    reflexivity.
  - apply progress_of_ge. split; [exact Hpos | lra].
Qed.

Lemma wrap_then_next_run_witness :
  progress (handleScroll (page_at 100 200 100 2 5)) < 0.99 /\
  0.99 <= progress (handleScroll (page_at 1 31 30 2 5)).
Proof.
  split.
  - assert (H : 0.99 <= progress (page_at 100 200 100 2 5)) by discriminate.
    apply (wrap_then_next_run (page_at 100 200 100 2 5) H). reflexivity.
  - assert (H : 0.99 <= progress (page_at 1 31 30 2 5)) by discriminate.
    apply (wrap_then_next_run (page_at 1 31 30 2 5) H). discriminate.
Defined.

(** ** More on the opacity of the messages *)

Lemma opacity_cases (p : Q) (i : nat) :
  opacity p i = JS.Num 0 \/
  exists t : Q,
    nth_error messagePositions i = Some t /\
    Qabs (p - t) < fadeRange /\
    opacity p i = JS.Num (1 - Qabs (p - t) / fadeRange).
Proof.
  destruct (nth_error messagePositions i) as [t |] eqn:Ht.
  - rewrite (opacity_with_target p i t Ht).
    destruct (JS.lt (JS.Num (Qabs (p - t))) (JS.Num fadeRange)) eqn:E.
    + right. exists t. apply lt_Num_true_iff in E. repeat split; assumption.
    + left. reflexivity.
  - left. apply opacity_without_target.
    apply nth_error_None in Ht. exact Ht.
Qed.

(** X6: for every progress and every message index, with or without a
    target, the opacity computed by the handler is a number between 0 and 1
    (never [NaN]), and every message of the page holds such a value after
    the handler ran. *)
Theorem opacity_in_unit_interval (p : Q) (i : nat) :
  (exists o : Q, opacity p i = JS.Num o /\ 0 <= o <= 1) /\
  (forall pg : Page,
     progress pg = p -> (i < List.length (messages pg))%nat ->
     nth_error (messages (handleScroll pg)) i = Some (opacity p i)).
Proof.
  split.
  - destruct (opacity_cases p i) as [H0 | [t [_ [Hlt Ho]]]].
    + exists 0. split; [exact H0 | split; discriminate].
    + exists (1 - Qabs (p - t) / fadeRange). split; [exact Ho |].
      pose proof (Qabs_nonneg (p - t)) as Hd.
      rewrite div_fadeRange. unfold fadeRange in Hlt. lra.
  - intros pg <- Hi. apply handleScroll_opacity, Hi.
Qed.

Lemma targets_two_apart (i j : nat) (ti tj : Q) :
  (i + 2 <= j)%nat ->
  nth_error messagePositions i = Some ti ->
  nth_error messagePositions j = Some tj ->
  0.4 <= tj - ti.
Proof.
  intros Hij Hi Hj.
  assert (Hj5 : (j < List.length messagePositions)%nat).
  { apply nth_error_Some. rewrite Hj. discriminate. }
  cbn in Hj5.
  destruct i as [| [| [| i]]]; destruct j as [| [| [| [| [| j]]]]];
    try lia; cbn in Hi, Hj;
    injection Hi as <-; injection Hj as <-; discriminate.
Qed.

(** X7: two messages whose indices differ by two or more are never visible
    together: whatever the progress, at least one of the two has opacity
    0. *)
Theorem far_messages_not_both_visible (p : Q) (i j : nat) :
  (i + 2 <= j)%nat ->
  opacity p i = JS.Num 0 \/ opacity p j = JS.Num 0.
Proof.
  intros Hij.
  destruct (opacity_cases p i) as [H0 | [ti [Hi [Hlti _]]]]; [left; exact H0 |].
  destruct (opacity_cases p j) as [H0 | [tj [Hj [Hltj _]]]]; [right; exact H0 |].
  exfalso.
  pose proof (targets_two_apart i j ti tj Hij Hi Hj) as Hgap.
  unfold fadeRange in *.
  apply Qabs_Qlt_condition in Hlti, Hltj. lra.
Qed.

Lemma far_messages_not_both_visible_witness :
  opacity 0.30 1 = JS.Num 0 \/ opacity 0.30 3 = JS.Num 0.
Proof.
  apply (far_messages_not_both_visible 0.30 1 3). lia.
Defined.

Lemma opacity_near (p : Q) (i : nat) (t : Q) :
  nth_error messagePositions i = Some t ->
  Qabs (p - t) <= 0.1 ->
  exists o : Q, opacity p i = JS.Num o /\ 0.16 <= o.
Proof.
  intros Ht Hd. rewrite (opacity_with_target p i t Ht).
  assert (E : JS.lt (JS.Num (Qabs (p - t))) (JS.Num fadeRange) = true).
  { apply lt_Num_true_iff. unfold fadeRange. lra. }
  rewrite E. exists (1 - Qabs (p - t) / fadeRange).
  split; [reflexivity |]. rewrite div_fadeRange. lra.
Qed.

(** X9: at every progress between 0 and 1 one of the first five messages is
    visible, with an opacity of at least 0.16: the fade regions of
    neighbouring targets overlap, and the first and the last reach the two
    ends of the scroll. *)
Theorem some_message_visible (p : Q) :
  0 <= p <= 1 ->
  exists (i : nat) (o : Q),
    (i < 5)%nat /\ opacity p i = JS.Num o /\ 0.16 <= o.
Proof.
  intros [H0 H1].
  assert (Hnear : forall (i : nat) (t : Q),
            (i < 5)%nat -> nth_error messagePositions i = Some t ->
            t - 0.1 <= p <= t + 0.1 ->
            exists (i : nat) (o : Q),
              (i < 5)%nat /\ opacity p i = JS.Num o /\ 0.16 <= o).
  { intros i t Hi Ht [Hl Hu].
    destruct (opacity_near p i t Ht) as [o [Ho Hge]].
    - apply Qabs_Qle_condition. split; lra.
    - exists i, o. repeat split; assumption. }
  destruct (Qlt_le_dec p 0.2) as [C1 | C1];
    [apply (Hnear 0%nat 0.10); [lia | reflexivity | split; lra] |].
  destruct (Qlt_le_dec p 0.4) as [C2 | C2];
    [apply (Hnear 1%nat 0.30); [lia | reflexivity | split; lra] |].
  destruct (Qlt_le_dec p 0.6) as [C3 | C3];
    [apply (Hnear 2%nat 0.50); [lia | reflexivity | split; lra] |].
  destruct (Qlt_le_dec p 0.8) as [C4 | C4];
    [apply (Hnear 3%nat 0.70); [lia | reflexivity | split; lra] |].
  apply (Hnear 4%nat 0.90); [lia | reflexivity | split; lra].
Qed.

Lemma some_message_visible_witness :
  exists (i : nat) (o : Q),
    (i < 5)%nat /\ opacity 0.2 i = JS.Num o /\ 0.16 <= o.
Proof.
  apply (some_message_visible 0.2). split; discriminate.
Defined.

(** ** More on the audio toggle *)

(** X10: a click with a source set while the audio plays stops it and sets
    the label to "Play Sound"; no playback is requested and no notice is
    shown. *)
Theorem pause_branch (outcome : settled) (pg : Page) :
  ambientAudio_src pg <> EmptyString ->
  ambientAudio_paused pg = false ->
  log (audioToggle_click outcome pg) =
    log pg ++ [Pause; SetTextContent "Play Sound"%string] /\
  ambientAudio_paused (audioToggle_click outcome pg) = true /\
  audioToggle_textContent (audioToggle_click outcome pg) = "Play Sound"%string.
Proof.
  intros Hsrc Hp. unfold audioToggle_click.
  rewrite (src_set pg Hsrc), Hp. cbn. rewrite <- app_assoc. repeat split.
Qed.

Lemma pause_branch_witness :
  ambientAudio_paused (audioToggle_click Fulfilled (page_at 0 130 30 3 5))
    = false /\
  ambientAudio_paused
    (audioToggle_click Rejected
       (audioToggle_click Fulfilled (page_at 0 130 30 3 5))) = true /\
  audioToggle_textContent
    (audioToggle_click Rejected
       (audioToggle_click Fulfilled (page_at 0 130 30 3 5)))
    = "Play Sound"%string.
Proof.
  split; [reflexivity |].
  apply (pause_branch Rejected
           (audioToggle_click Fulfilled (page_at 0 130 30 3 5)));
    [discriminate | reflexivity].
Defined.

(** X11: with a source set and playback requests that succeed, a click
    flips the paused state, the label then names the action of the next
    click ("Play Sound" when paused, "Pause Sound" when playing), and two
    clicks bring the paused state back. *)
Theorem toggle_flips (pg : Page) :
  ambientAudio_src pg <> EmptyString ->
  ambientAudio_paused (audioToggle_click Fulfilled pg)
    = negb (ambientAudio_paused pg) /\
  audioToggle_textContent (audioToggle_click Fulfilled pg)
    = (if ambientAudio_paused (audioToggle_click Fulfilled pg)
       then "Play Sound" else "Pause Sound")%string /\
  ambientAudio_paused
    (audioToggle_click Fulfilled (audioToggle_click Fulfilled pg))
    = ambientAudio_paused pg.
Proof.
  intros Hsrc.
  assert (Hstep : forall q : Page,
            ambientAudio_src q <> EmptyString ->
            ambientAudio_paused (audioToggle_click Fulfilled q)
              = negb (ambientAudio_paused q) /\
            audioToggle_textContent (audioToggle_click Fulfilled q)
              = (if ambientAudio_paused (audioToggle_click Fulfilled q)
                 then "Play Sound" else "Pause Sound")%string /\
            ambientAudio_src (audioToggle_click Fulfilled q)
              = ambientAudio_src q).
  { intros q Hq. unfold audioToggle_click. rewrite (src_set q Hq).
    destruct (ambientAudio_paused q); cbn; repeat split. }
  destruct (Hstep pg Hsrc) as [Hflip [Hlabel Hsame]].
  split; [exact Hflip |]. split; [exact Hlabel |].
  assert (Hsrc' : ambientAudio_src (audioToggle_click Fulfilled pg)
                  <> EmptyString) by (rewrite Hsame; exact Hsrc).
  destruct (Hstep _ Hsrc') as [Hflip' _].
  rewrite Hflip', Hflip. apply negb_involutive.
Qed.

Lemma toggle_flips_witness :
  ambientAudio_paused (audioToggle_click Fulfilled (page_at 0 130 30 3 5))
    = false /\
  ambientAudio_paused
    (audioToggle_click Fulfilled
       (audioToggle_click Fulfilled (page_at 0 130 30 3 5))) = true.
Proof.
  assert (Hsrc : ambientAudio_src (page_at 0 130 30 3 5) <> EmptyString)
    by discriminate.
  split; apply (toggle_flips (page_at 0 130 30 3 5) Hsrc).
Defined.

(** ** What neither handler touches *)

Lemma handleScroll_cases (pg : Page) :
  handleScroll pg = painted (progress pg) pg \/
  handleScroll pg = scrollTo 0 1 (painted (progress pg) pg).
Proof.
  destruct (Qlt_le_dec (progress pg) 0.99) as [H | H].
  - left. apply handleScroll_no_wrap, H.
  - right. apply handleScroll_wrap, H.
Qed.

Lemma filter_none {A : Type} (f : A -> bool) (l : list A) :
  (forall x : A, In x l -> f x = false) -> filter f l = [].
Proof.
  induction l as [| x l IH]; intros H; [reflexivity |].
  cbn. rewrite (H x (or_introl eq_refl)). apply IH.
  intros y Hy. apply H. right. exact Hy.
Qed.

Lemma visual_effects_no_audio (p : Q) (n m : nat) :
  filter is_audio_effect (visual_effects p n m) = [].
Proof.
  apply filter_none. intros e He. unfold visual_effects in He.
  rewrite !in_app_iff, !in_map_iff in He.
  destruct He as [[<- | []] | [[i [<- _]] | [i [<- _]]]]; reflexivity.
Qed.

Lemma handleScroll_audio (pg : Page) :
  ambientAudio_src (handleScroll pg) = ambientAudio_src pg /\
  ambientAudio_paused (handleScroll pg) = ambientAudio_paused pg /\
  audioToggle_textContent (handleScroll pg) = audioToggle_textContent pg /\
  filter is_audio_effect (log (handleScroll pg))
    = filter is_audio_effect (log pg).
Proof.
  destruct (handleScroll_cases pg) as [-> | ->];
    unfold scrollTo, record, painted;
    cbn [log ambientAudio_src ambientAudio_paused audioToggle_textContent];
    rewrite ?filter_app, visual_effects_no_audio;
    cbn [filter is_audio_effect app];
    rewrite ?app_nil_r; repeat split.
Qed.

Lemma handleScroll_measures (pg : Page) :
  List.length (shapes (handleScroll pg)) = List.length (shapes pg) /\
  List.length (messages (handleScroll pg)) = List.length (messages pg) /\
  scrollContainer_scrollHeight (handleScroll pg)
    = scrollContainer_scrollHeight pg /\
  innerHeight (handleScroll pg) = innerHeight pg /\
  exists written : list effect, log (handleScroll pg) = log pg ++ written.
Proof.
  rewrite handleScroll_shapes, handleScroll_messages.
  rewrite !length_map, !length_seq.
  destruct (handleScroll_cases pg) as [-> | ->];
    unfold scrollTo, record, painted;
    cbn [log scrollContainer_scrollHeight innerHeight]; repeat split;
    rewrite <- ?app_assoc; eexists; reflexivity.
Qed.

Lemma click_visuals (outcome : settled) (pg : Page) :
  pageYOffset (audioToggle_click outcome pg) = pageYOffset pg /\
  documentElement_scrollTop (audioToggle_click outcome pg)
    = documentElement_scrollTop pg /\
  scrollContainer_scrollHeight (audioToggle_click outcome pg)
    = scrollContainer_scrollHeight pg /\
  innerHeight (audioToggle_click outcome pg) = innerHeight pg /\
  body_backgroundColor (audioToggle_click outcome pg)
    = body_backgroundColor pg /\
  shapes (audioToggle_click outcome pg) = shapes pg /\
  messages (audioToggle_click outcome pg) = messages pg /\
  ambientAudio_src (audioToggle_click outcome pg) = ambientAudio_src pg /\
  exists written : list effect,
    log (audioToggle_click outcome pg) = log pg ++ written /\
    forall e : effect, In e written ->
      match e with
      | Alert _ | Play | Pause | SetTextContent _ => True
      | _ => False
      end.
Proof.
  unfold audioToggle_click.
  destruct (String.eqb (ambientAudio_src pg) EmptyString);
    [| destruct (ambientAudio_paused pg); [destruct outcome |]];
    cbn; repeat split; rewrite <- ?app_assoc;
    eexists; (split; [reflexivity |]);
    cbn; intros e He; intuition (subst; exact I).
Qed.

(** X13: the two handlers keep to their own parts of the page.  The scroll
    handler leaves the audio source, the paused state and the label as they
    were and makes no playback request or stop; the click handler leaves the
    scroll offset, the background, the shapes and the messages as they were
    and writes only notices, audio requests and the label. *)
Theorem handlers_are_separate (outcome : settled) (pg : Page) :
  (ambientAudio_src (handleScroll pg) = ambientAudio_src pg /\
   ambientAudio_paused (handleScroll pg) = ambientAudio_paused pg /\
   audioToggle_textContent (handleScroll pg) = audioToggle_textContent pg /\
   filter is_audio_effect (log (handleScroll pg))
     = filter is_audio_effect (log pg)) /\
  (pageYOffset (audioToggle_click outcome pg) = pageYOffset pg /\
   documentElement_scrollTop (audioToggle_click outcome pg)
     = documentElement_scrollTop pg /\
   body_backgroundColor (audioToggle_click outcome pg)
     = body_backgroundColor pg /\
   shapes (audioToggle_click outcome pg) = shapes pg /\
   messages (audioToggle_click outcome pg) = messages pg /\
   exists written : list effect,
     log (audioToggle_click outcome pg) = log pg ++ written /\
     forall e : effect, In e written ->
       match e with
       | Alert _ | Play | Pause | SetTextContent _ => True
       | _ => False
       end).
Proof.
  split; [apply handleScroll_audio |].
  destruct (click_visuals outcome pg)
    as [Hy [Hd [_ [_ [Hb [Hs [Hm [_ Hw]]]]]]]].
  repeat split; assumption.
Qed.

(** ** Any sequence of events *)

Lemma dispatch_static (e : event) (pg : Page) :
  List.length (shapes (dispatch e pg)) = List.length (shapes pg) /\
  List.length (messages (dispatch e pg)) = List.length (messages pg) /\
  ambientAudio_src (dispatch e pg) = ambientAudio_src pg /\
  scrollContainer_scrollHeight (dispatch e pg)
    = scrollContainer_scrollHeight pg /\
  innerHeight (dispatch e pg) = innerHeight pg /\
  exists written : list effect, log (dispatch e pg) = log pg ++ written.
Proof.
  destruct e as [y | | outcome]; cbn [dispatch].
  - cbn. repeat split. exists []. symmetry. apply app_nil_r.
  - destruct (handleScroll_measures pg) as [Hs [Hm [Hh [Hi Hw]]]].
    destruct (handleScroll_audio pg) as [Hsrc _].
    repeat split; assumption.
  - destruct (click_visuals outcome pg)
      as [_ [_ [Hh [Hi [_ [Hs [Hm [Hsrc [w [Hw _]]]]]]]]]].
    rewrite Hs, Hm. repeat split; try assumption.
    exists w. exact Hw.
Qed.

(** X14: whatever the host scrolls to, however often the scroll handler
    runs and whatever is clicked, the script keeps the number of shapes and
    of messages, the audio source and the two measured heights, and it only
    ever adds to the record of its writes. *)
Theorem run_keeps_page_structure (events : list event) (pg : Page) :
  List.length (shapes (run events pg)) = List.length (shapes pg) /\
  List.length (messages (run events pg)) = List.length (messages pg) /\
  ambientAudio_src (run events pg) = ambientAudio_src pg /\
  scrollContainer_scrollHeight (run events pg)
    = scrollContainer_scrollHeight pg /\
  innerHeight (run events pg) = innerHeight pg /\
  exists written : list effect, log (run events pg) = log pg ++ written.
Proof.
  revert pg. induction events as [| e events IH]; intros pg.
  - cbn. repeat split. exists []. symmetry. apply app_nil_r.
  - change (run (e :: events) pg) with (run events (dispatch e pg)).
    destruct (IH (dispatch e pg)) as [Hs [Hm [Hsrc [Hh [Hi [w Hw]]]]]].
    destruct (dispatch_static e pg) as [Hs' [Hm' [Hsrc' [Hh' [Hi' [w' Hw']]]]]].
    rewrite Hs, Hm, Hsrc, Hh, Hi, Hw, Hw'. repeat split; try assumption.
    exists (w' ++ w). rewrite app_assoc. reflexivity.
Qed.

Lemma dispatch_without_source (e : event) (pg : Page) :
  ambientAudio_src pg = EmptyString ->
  ambientAudio_src (dispatch e pg) = EmptyString /\
  ambientAudio_paused (dispatch e pg) = ambientAudio_paused pg /\
  audioToggle_textContent (dispatch e pg) = audioToggle_textContent pg /\
  filter is_audio_effect (log (dispatch e pg))
    = filter is_audio_effect (log pg).
Proof.
  intros Hsrc. destruct e as [y | | outcome]; cbn [dispatch].
  - cbn. repeat split. exact Hsrc.
  - destruct (handleScroll_audio pg) as [H1 [H2 [H3 H4]]].
    rewrite H1. repeat split; assumption.
  - unfold audioToggle_click. rewrite Hsrc. cbn.
    rewrite filter_app. cbn. rewrite app_nil_r. repeat split. exact Hsrc.
Qed.

(** X15: while the audio element has no source, nothing plays: after any
    sequence of scrolls, handler runs and clicks the audio state and the
    label are unchanged and no playback request or stop has been made. *)
Theorem no_source_never_plays (events : list event) (pg : Page) :
  ambientAudio_src pg = EmptyString ->
  ambientAudio_paused (run events pg) = ambientAudio_paused pg /\
  audioToggle_textContent (run events pg) = audioToggle_textContent pg /\
  filter is_audio_effect (log (run events pg))
    = filter is_audio_effect (log pg).
Proof.
  revert pg. induction events as [| e events IH]; intros pg Hsrc.
  - cbn. repeat split.
  - change (run (e :: events) pg) with (run events (dispatch e pg)).
    destruct (dispatch_without_source e pg Hsrc) as [Hsrc' [Hp [Hl Hf]]].
    destruct (IH (dispatch e pg) Hsrc') as [Hp' [Hl' Hf']].
    rewrite Hp', Hl', Hf', Hp, Hl, Hf. repeat split.
Qed.

Lemma no_source_never_plays_witness :
  ambientAudio_paused
    (run [Click Fulfilled; HostScroll 99; RunHandleScroll; Click Rejected]
         page_without_source) = true /\
  audioToggle_textContent
    (run [Click Fulfilled; HostScroll 99; RunHandleScroll; Click Rejected]
         page_without_source) = "Play Sound"%string /\
  filter is_audio_effect
    (log (run [Click Fulfilled; HostScroll 99; RunHandleScroll; Click Rejected]
              page_without_source)) = [].
Proof.
  apply (no_source_never_plays
           [Click Fulfilled; HostScroll 99; RunHandleScroll; Click Rejected]
           page_without_source).
  reflexivity.
Defined.

Lemma handleScroll_values_in_range (pg : Page) :
  Forall (fun s : R => (0.6 <= s <= 1.0)%R) (shapes (handleScroll pg)) /\
  Forall (fun o : JS.number => exists q : Q, o = JS.Num q /\ 0 <= q <= 1)
         (messages (handleScroll pg)).
Proof.
  rewrite handleScroll_shapes, handleScroll_messages. split.
  - apply Forall_forall. intros s Hs. apply in_map_iff in Hs.
    destruct Hs as [index [<- _]]. unfold scale.
    pose proof (SIN_bound (phase (progress pg) index (List.length (shapes pg)))).
    lra.
  - apply Forall_forall. intros o Ho. apply in_map_iff in Ho.
    destruct Ho as [i [<- _]].
    destruct (opacity_cases (progress pg) i) as [H0 | [t [_ [Hlt H1]]]].
    + exists 0. split; [exact H0 | split; discriminate].
    + exists (1 - Qabs (progress pg - t) / fadeRange). split; [exact H1 |].
      pose proof (Qabs_nonneg (progress pg - t)) as Hd.
      rewrite div_fadeRange. unfold fadeRange in Hlt. lra.
Qed.

(** X16: once the scroll handler has run (the script runs it at startup),
    every shape has a scale between 0.6 and 1 and every message an opacity
    between 0 and 1, and this stays so through any later sequence of
    scrolls, handler runs and clicks. *)
Theorem values_stay_in_range (events : list event) (pg : Page) :
  Forall (fun s : R => (0.6 <= s <= 1.0)%R)
         (shapes (run events (handleScroll pg))) /\
  Forall (fun o : JS.number => exists q : Q, o = JS.Num q /\ 0 <= q <= 1)
         (messages (run events (handleScroll pg))).
Proof.
  generalize (handleScroll_values_in_range pg).
  generalize (handleScroll pg). clear pg.
  induction events as [| e events IH]; intros pg Hpg; [exact Hpg |].
  change (run (e :: events) pg) with (run events (dispatch e pg)).
  apply IH. destruct e as [y | | outcome]; cbn [dispatch].
  - exact Hpg.
  - apply handleScroll_values_in_range.
  - destruct (click_visuals outcome pg)
      as [_ [_ [_ [_ [_ [Hs [Hm _]]]]]]].
    rewrite Hs, Hm. exact Hpg.
Qed.
